(** * Device memory primitives and the device pointer handle

    A shallow embedding of [cuda/utils/Memory.h]: the four free functions
    [gpu_malloc], [gpu_free], [gpu_memcpy_h2d], [gpu_memcpy_d2h] and the class
    template [DevicePtrWrapper<T>].

    The CUDA runtime is an external collaborator.  It is taken as an interface
    ([DeviceRuntime]) over an arbitrary machine state, so that every general
    statement below holds for every runtime; a small simulated device
    ([sim]) is provided to evaluate the code on concrete inputs. *)

From stdpp Require Import base numbers option list gmap.

Local Open Scope Z_scope.

(** ** Machine-level data *)

(** A [T*] is an address; [nullptr] is address 0. *)
Abbreviation ptr := Z (only parsing).
Definition nullptr : ptr := 0.

(** [if (p)] on a pointer. *)
Definition non_null (p : ptr) : bool := negb (p =? nullptr).

(** [size_t] is a 64-bit unsigned integer: products wrap around. *)
Definition size_t_modulus : Z := 2 ^ 64.
Definition size_t_mul (a b : Z) : Z := (a * b) mod size_t_modulus.

(** [cudaError_t], with the numbering of the CUDA headers. *)
Abbreviation cudaError_t := Z (only parsing).
Definition cudaSuccess : cudaError_t := 0.
Definition cudaErrorInvalidValue : cudaError_t := 1.
Definition cudaErrorMemoryAllocation : cudaError_t := 2.

Inductive cudaMemcpyKind : Set :=
| cudaMemcpyHostToDevice
| cudaMemcpyDeviceToHost.

(** The runtime entry points this header calls, with their arguments. *)
Inductive call : Set :=
| CudaMalloc (bytes : Z)
| CudaFree (p : ptr)
| CudaMemcpy (dst src : ptr) (bytes : Z) (kind : cudaMemcpyKind).

(** The device runtime: each entry point answers with a status and the next
    machine state (host and device memory together); [cudaMalloc] also
    answers with the value it stores through its [devPtr] argument. *)
Class DeviceRuntime (R : Type) : Type := {
  cudaMalloc : R -> Z -> cudaError_t * ptr * R;
  cudaFree : R -> ptr -> cudaError_t * R;
  cudaMemcpy : R -> ptr -> ptr -> Z -> cudaMemcpyKind -> cudaError_t * R
}.

(** What a run of the code leaves behind: the machine state and the runtime
    calls issued so far, oldest first.  The list of calls is how "an
    underlying allocation occurs" and "released exactly once" are stated. *)
Record world (R : Type) : Type := World {
  machine : R;
  calls : list call
}.
Arguments World {R} _ _.
Arguments machine {R} _.
Arguments calls {R} _.

(** A computation either completes or terminates the process. *)
Inductive outcome (A : Type) : Type :=
| Done (a : A)
| Fatal (c : call) (status : cudaError_t).
Arguments Done {A} _.
Arguments Fatal {A} _ _.

(** Sequencing stops at the first fatal failure. *)
#[export] Instance outcome_ret : MRet outcome := fun A a => Done a.
#[export] Instance outcome_bind : MBind outcome := fun A B k m =>
  match m with
  | Done a => k a
  | Fatal c st => Fatal c st
  end.

(** Modelled from the spec: the macro [checkCudaErrors] of [utils/Errors.h],
    which is not part of the sources at hand.  Every status other than
    success is fatal and names the failing call and the status; on success
    execution continues. *)
Definition checkCudaErrors {A : Type} (c : call) (status : cudaError_t) (a : A)
  : outcome A :=
  if status =? cudaSuccess then Done a else Fatal c status.

(** The bytes requested of the runtime by the calls of a log. *)
Definition mallocs (l : list call) : list Z :=
  omap (fun c => match c with CudaMalloc b => Some b | _ => None end) l.

(** The pointers handed to [cudaFree] by the calls of a log. *)
Definition frees (l : list call) : list Z :=
  omap (fun c => match c with CudaFree p => Some p | _ => None end) l.

(** The handle: the private members of [DevicePtrWrapper<T>]. *)
Record DevicePtrWrapper : Set := Handle {
  d_external_ : ptr;
  d_internal_ : ptr;
  size_ : Z
}.

(** [DevicePtrWrapper() = default] with the member initialisers. *)
Definition fresh : DevicePtrWrapper :=
  {| d_external_ := nullptr; d_internal_ := nullptr; size_ := 0 |}.

(** ** Pure members of the handle *)

(** [void set_external(T *d) { d_external_ = d; }] *)
Definition set_external (d : ptr) (h : DevicePtrWrapper) : DevicePtrWrapper :=
  {| d_external_ := d; d_internal_ := d_internal_ h; size_ := size_ h |}.

(** [DevicePtrWrapper &operator=(T *dptr)]: calls [set_external], returns
    [*this]. *)
Definition assign_ptr (dptr : ptr) (h : DevicePtrWrapper) : DevicePtrWrapper :=
  set_external dptr h.

(** [void unset_external() { d_external_ = nullptr; }] *)
Definition unset_external (h : DevicePtrWrapper) : DevicePtrWrapper :=
  {| d_external_ := nullptr; d_internal_ := d_internal_ h; size_ := size_ h |}.

(** [bool isExternal() const { return d_external_ != nullptr; }] *)
Definition isExternal (h : DevicePtrWrapper) : bool :=
  negb (d_external_ h =? nullptr).

(** [size_t size() const { return size_; }] *)
Definition size (h : DevicePtrWrapper) : Z := size_ h.

(** [T *get() const] *)
Definition get (h : DevicePtrWrapper) : ptr :=
  if isExternal h then d_external_ h else d_internal_ h.

(** [operator bool() const { return get() != nullptr; }] *)
Definition to_bool (h : DevicePtrWrapper) : bool :=
  negb (get h =? nullptr).

(** The defaulted move constructor moves member by member; moving a raw
    pointer or a [size_t] copies it.  The result is the new handle paired
    with the moved-from handle. *)
Definition move_construct (src : DevicePtrWrapper)
  : DevicePtrWrapper * DevicePtrWrapper :=
  ({| d_external_ := d_external_ src;
      d_internal_ := d_internal_ src;
      size_ := size_ src |},
   src).

(** The defaulted move assignment, member by member as well: the destination
    after the assignment paired with the moved-from handle. *)
Definition move_assign (dst src : DevicePtrWrapper)
  : DevicePtrWrapper * DevicePtrWrapper :=
  ({| d_external_ := d_external_ src;
      d_internal_ := d_internal_ src;
      size_ := size_ src |},
   src).

(** ** Code that talks to the runtime *)

Section Memory.

Context {R : Type} {RT : DeviceRuntime R}.

(** [sizeof(T)] of the template's element type. *)
Variable sizeofT : Z.

(** One call of each entry point, recorded in the log. *)
Definition call_cudaMalloc (w : world R) (bytes : Z)
  : cudaError_t * ptr * world R :=
  let '(st, p, m) := cudaMalloc (machine w) bytes in
  (st, p, World m (calls w ++ [CudaMalloc bytes])).

Definition call_cudaFree (w : world R) (p : ptr) : cudaError_t * world R :=
  let '(st, m) := cudaFree (machine w) p in
  (st, World m (calls w ++ [CudaFree p])).

Definition call_cudaMemcpy (w : world R) (dst src : ptr) (bytes : Z)
    (kind : cudaMemcpyKind) : cudaError_t * world R :=
  let '(st, m) := cudaMemcpy (machine w) dst src bytes kind in
  (st, World m (calls w ++ [CudaMemcpy dst src bytes kind])).

(** [gpu_malloc(T *&ptr, size_t size)]: the result is the value left in
    [ptr]. *)
Definition gpu_malloc (size : Z) (w : world R) : outcome (ptr * world R) :=
  let bytes := size_t_mul sizeofT size in
  let '(st, p, w') := call_cudaMalloc w bytes in
  checkCudaErrors (CudaMalloc bytes) st (p, w').

(** [gpu_free(T *ptr)]: the status of [cudaFree] is dropped. *)
Definition gpu_free (p : ptr) (w : world R) : outcome (world R) :=
  if non_null p then
    let '(_, w') := call_cudaFree w p in Done w'
  else Done w.

(** [gpu_memcpy_h2d(T *device, const T *host, size_t size)] *)
Definition gpu_memcpy_h2d (device host : ptr) (size : Z) (w : world R)
  : outcome (world R) :=
  if negb (non_null host) || negb (non_null device) then Done w
  else
    let bytes := size_t_mul sizeofT size in
    let '(st, w') := call_cudaMemcpy w device host bytes cudaMemcpyHostToDevice in
    checkCudaErrors (CudaMemcpy device host bytes cudaMemcpyHostToDevice) st w'.

(** [gpu_memcpy_d2h(T *host, const T *device, size_t size)] *)
Definition gpu_memcpy_d2h (host device : ptr) (size : Z) (w : world R)
  : outcome (world R) :=
  if negb (non_null host) || negb (non_null device) then Done w
  else
    let bytes := size_t_mul sizeofT size in
    let '(st, w') := call_cudaMemcpy w host device bytes cudaMemcpyDeviceToHost in
    checkCudaErrors (CudaMemcpy host device bytes cudaMemcpyDeviceToHost) st w'.

(** [void allocate(size_t size)] *)
Definition allocate (n : Z) (h : DevicePtrWrapper) (w : world R)
  : outcome (DevicePtrWrapper * world R) :=
  if negb (isExternal h) then
    w1 ← (if non_null (d_internal_ h) && (size_ h <? n)
          then gpu_free (d_internal_ h) w
          else Done w);
    if non_null (d_internal_ h) && (size_ h >=? n) then Done (h, w1)
    else
      '(p, w2) ← gpu_malloc n w1;
      Done ({| d_external_ := d_external_ h;
               d_internal_ := p;
               size_ := n |}, w2)
  else Done (h, w).

(** The calls [allocate] issues when it does not return early. *)
Definition realloc_calls (n : Z) (h : DevicePtrWrapper) : list call :=
  (if non_null (d_internal_ h) then [CudaFree (d_internal_ h)] else [])
  ++ [CudaMalloc (size_t_mul sizeofT n)].

(** [~DevicePtrWrapper()] *)
Definition destroy (h : DevicePtrWrapper) (w : world R) : outcome (world R) :=
  if non_null (d_internal_ h) then gpu_free (d_internal_ h) w else Done w.


(** The public members as commands, and what each returns, to run sequences
    of calls on one handle. *)
Inductive op : Set :=
| Allocate (n : Z)
| SetExternal (d : ptr)
| AssignPtr (dptr : ptr)
| UnsetExternal
| IsExternal
| Size
| ToBool
| Get.

Inductive value : Set :=
| VUnit
| VBool (b : bool)
| VSize (n : Z)
| VPtr (p : ptr).

Definition exec (o : op) (h : DevicePtrWrapper) (w : world R)
  : outcome (value * DevicePtrWrapper * world R) :=
  match o with
  | Allocate n => '(h', w') ← allocate n h w; Done (VUnit, h', w')
  | SetExternal d => Done (VUnit, set_external d h, w)
  | AssignPtr dptr => Done (VUnit, assign_ptr dptr h, w)
  | UnsetExternal => Done (VUnit, unset_external h, w)
  | IsExternal => Done (VBool (isExternal h), h, w)
  | Size => Done (VSize (size h), h, w)
  | ToBool => Done (VBool (to_bool h), h, w)
  | Get => Done (VPtr (get h), h, w)
  end.

Fixpoint run (ops : list op) (h : DevicePtrWrapper) (w : world R)
  : outcome (DevicePtrWrapper * world R) :=
  match ops with
  | [] => Done (h, w)
  | o :: ops' => '(_, h', w') ← exec o h w; run ops' h' w'
  end.

(** Two handles leaving scope: the later-constructed one is destroyed first. *)
Definition destroy_both (later earlier : DevicePtrWrapper) (w : world R)
  : outcome (world R) :=
  w1 ← destroy later w; destroy earlier w1.

(** [{ DevicePtrWrapper<T> a; a.allocate(n); DevicePtrWrapper<T> b(std::move(a)); }]:
    a handle that owns a buffer is moved from, and both handles leave scope. *)
Definition move_construct_scope (n : Z) (w : world R) : outcome (world R) :=
  '(a, w1) ← allocate n fresh w;
  let '(b, a') := move_construct a in
  destroy_both b a' w1.

(** [{ DevicePtrWrapper<T> a, b; a.allocate(na); b.allocate(nb); b = std::move(a); }] *)
Definition move_assign_scope (na nb : Z) (w : world R) : outcome (world R) :=
  '(a, w1) ← allocate na fresh w;
  '(b, w2) ← allocate nb fresh w1;
  let '(b', a') := move_assign b a in
  destroy_both b' a' w2.

End Memory.

(** ** A simulated device

    A deterministic runtime to evaluate the code on: device memory is handed
    out at increasing 256-byte aligned addresses, a request of zero bytes
    succeeds with a null pointer, a request beyond what is left fails with
    [cudaErrorMemoryAllocation], freeing an address that is not the base of
    a live block fails with [cudaErrorInvalidValue], and a transfer must fit
    the live block at the device address. *)
Record sim : Type := Sim {
  next_addr : Z;
  device_left : Z;
  live : gmap Z Z;
  dmem : gmap Z Z;
  hmem : gmap Z Z
}.

Definition sim_malloc (s : sim) (bytes : Z) : cudaError_t * ptr * sim :=
  if bytes =? 0 then (cudaSuccess, nullptr, s)
  else if device_left s <? bytes then (cudaErrorMemoryAllocation, nullptr, s)
  else (cudaSuccess, next_addr s,
        {| next_addr := next_addr s + 256 * ((bytes + 255) / 256);
           device_left := device_left s - bytes;
           live := <[next_addr s := bytes]> (live s);
           dmem := dmem s;
           hmem := hmem s |}).

Definition sim_free (s : sim) (p : ptr) : cudaError_t * sim :=
  if p =? nullptr then (cudaSuccess, s)
  else match live s !! p with
       | Some bytes =>
           (cudaSuccess,
            {| next_addr := next_addr s;
               device_left := device_left s + bytes;
               live := delete p (live s);
               dmem := dmem s;
               hmem := hmem s |})
       | None => (cudaErrorInvalidValue, s)
       end.

(** Byte-wise copy of [k] bytes from [from] at [src] into [to] at [dst]. *)
Fixpoint copy_bytes (k : nat) (src dst : Z) (from to : gmap Z Z) : gmap Z Z :=
  match k with
  | O => to
  | S k' => copy_bytes k' (src + 1) (dst + 1) from
              (<[dst := default 0 (from !! src)]> to)
  end.

Definition fits (s : sim) (device : ptr) (bytes : Z) : bool :=
  match live s !! device with
  | Some b => bytes <=? b
  | None => false
  end.

Definition sim_memcpy (s : sim) (dst src : ptr) (bytes : Z)
    (kind : cudaMemcpyKind) : cudaError_t * sim :=
  match kind with
  | cudaMemcpyHostToDevice =>
      if fits s dst bytes then
        (cudaSuccess,
         {| next_addr := next_addr s;
            device_left := device_left s;
            live := live s;
            dmem := copy_bytes (Z.to_nat bytes) src dst (hmem s) (dmem s);
            hmem := hmem s |})
      else (cudaErrorInvalidValue, s)
  | cudaMemcpyDeviceToHost =>
      if fits s src bytes then
        (cudaSuccess,
         {| next_addr := next_addr s;
            device_left := device_left s;
            live := live s;
            dmem := dmem s;
            hmem := copy_bytes (Z.to_nat bytes) src dst (dmem s) (hmem s) |})
      else (cudaErrorInvalidValue, s)
  end.

#[export] Instance sim_runtime : DeviceRuntime sim := {
  cudaMalloc := sim_malloc;
  cudaFree := sim_free;
  cudaMemcpy := sim_memcpy
}.

(** A device with 1 KiB of memory, nothing allocated, and four bytes of host
    data at host address 64. *)
Definition sim0 : sim :=
  {| next_addr := 4096;
     device_left := 1024;
     live := ∅;
     dmem := ∅;
     hmem := <[64 := 10]> (<[65 := 20]> (<[66 := 30]> (<[67 := 40]> ∅))) |}.

Definition world0 : world sim := World sim0 [].

(** [float]: four bytes per element. *)
Definition sizeof_float : Z := 4.

(** The runtime calls on record once a computation has completed. *)
Definition calls_of {A R : Type} (o : outcome (A * world R)) : option (list call) :=
  match o with
  | Done (_, w) => Some (calls w)
  | Fatal _ _ => None
  end.

(** The four host bytes at address 128 once a computation has completed. *)
Definition ok_bytes (o : outcome (world sim)) : option (list (option Z)) :=
  match o with
  | Done w => Some (map (fun a => hmem (machine w) !! a) [128; 129; 130; 131])
  | Fatal _ _ => None
  end.

Definition calls_after {R : Type} (o : outcome (world R)) : option (list call) :=
  match o with
  | Done w => Some (calls w)
  | Fatal _ _ => None
  end.

(** Concrete states of the simulated device, as the runs below leave it. *)

(** A handle borrowing the device address 8192. *)
Definition borrowed : DevicePtrWrapper := set_external 8192 fresh.

(** After [allocate(2)] on a default-constructed handle of [float]. *)
Definition handle_2 : DevicePtrWrapper :=
  {| d_external_ := nullptr; d_internal_ := 4096; size_ := 2 |}.
Definition world_2 : world sim :=
  World {| next_addr := 4352; device_left := 1016; live := {[4096 := 8]};
           dmem := ∅; hmem := hmem sim0 |}
        [CudaMalloc 8].

(** After [allocate(1)] and then [allocate(2)]. *)
Definition handle_1_2 : DevicePtrWrapper :=
  {| d_external_ := nullptr; d_internal_ := 4352; size_ := 2 |}.
Definition world_1_2 : world sim :=
  World {| next_addr := 4608; device_left := 1016; live := {[4352 := 8]};
           dmem := ∅; hmem := hmem sim0 |}
        [CudaMalloc 4; CudaFree 4096; CudaMalloc 8].

(** After [allocate(2)] and then [allocate(3)]. *)
Definition handle_2_3 : DevicePtrWrapper :=
  {| d_external_ := nullptr; d_internal_ := 4352; size_ := 3 |}.
Definition world_2_3 : world sim :=
  World {| next_addr := 4608; device_left := 1012; live := {[4352 := 12]};
           dmem := ∅; hmem := hmem sim0 |}
        [CudaMalloc 8; CudaFree 4096; CudaMalloc 12].

(** ** Accounts of device memory

    Any runtime can be made to keep accounts: beside its own state, the
    pointers it has answered successful [cudaMalloc] calls with and the
    pointers it has been handed through [cudaFree], in the order of the
    calls.  The code runs on it as on any runtime. *)
Inductive entry : Set :=
| Obtained (p : ptr)
| Released (p : ptr).

Definition ledger_runtime {R : Type} (RT : DeviceRuntime R)
  : DeviceRuntime (R * list entry) := {|
  cudaMalloc := fun s bytes =>
    let '(st, p, m) := cudaMalloc s.1 bytes in
    (st, p, (m, if st =? cudaSuccess then s.2 ++ [Obtained p] else s.2));
  cudaFree := fun s p =>
    let '(st, m) := cudaFree s.1 p in
    (st, (m, s.2 ++ [Released p]));
  cudaMemcpy := fun s dst src bytes kind =>
    let '(st, m) := cudaMemcpy s.1 dst src bytes kind in
    (st, (m, s.2))
|}.

Definition ledger {R : Type} (w : world (R * list entry)) : list entry :=
  (machine w).2.

(** The pointer not yet released after the entries of a ledger, starting
    with [held] (null: none), provided the ledger is orderly: memory is
    obtained only while none is held, and what is released is the pointer
    held, which is not null.  A disorderly ledger has no answer. *)
Fixpoint outstanding (held : ptr) (l : list entry) : option ptr :=
  match l with
  | [] => Some held
  | Obtained p :: l' =>
      if held =? nullptr then outstanding p l' else None
  | Released p :: l' =>
      if non_null p && (p =? held) then outstanding nullptr l' else None
  end.

(** The commands that leave the external pointer alone. *)
Definition keeps_external (o : op) : bool :=
  match o with
  | SetExternal _ | AssignPtr _ | UnsetExternal => false
  | Allocate _ | IsExternal | Size | ToBool | Get => true
  end.

(** A handle is default-constructed and allocated for [n] elements, [n]
    elements are copied from the host address [src] to its buffer, and back
    from the buffer to the host address [dst]. *)
Definition upload_download {R : Type} {RT : DeviceRuntime R} (sizeofT n : Z)
    (src dst : ptr) (w : world R) : outcome (DevicePtrWrapper * world R) :=
  '(h, w1) ← allocate sizeofT n fresh w;
  w2 ← gpu_memcpy_h2d sizeofT (get h) src n w1;
  w3 ← gpu_memcpy_d2h sizeofT dst (get h) n w2;
  Done (h, w3).

(** The simulated device keeping accounts, nothing allocated. *)
Definition ledger_world0 : world (sim * list entry) := World (sim0, []) [].

(** * Properties *)

(** ** The primitives, for every runtime *)

Section PrimitiveFacts.

Context {R : Type} {RT : DeviceRuntime R}.
Variable sizeofT : Z.

Lemma non_null_true (p : ptr) : non_null p = true <-> p ≠ nullptr.
Proof.
  unfold non_null. rewrite negb_true_iff, Z.eqb_neq. reflexivity.
Qed.

Lemma non_null_false (p : ptr) : non_null p = false <-> p = nullptr.
Proof.
  unfold non_null. rewrite negb_false_iff, Z.eqb_eq. reflexivity.
Qed.

Lemma checkCudaErrors_success {A : Type} (c : call) (a : A) :
  checkCudaErrors c cudaSuccess a = Done a.
Proof. reflexivity. Qed.

Lemma checkCudaErrors_failure {A : Type} (c : call) (st : Z) (a : A) :
  st ≠ cudaSuccess -> checkCudaErrors c st a = Fatal c st.
Proof.
  intros Hst. unfold checkCudaErrors.
  destruct (st =? cudaSuccess) eqn:E; [apply Z.eqb_eq in E; contradiction | reflexivity].
Qed.

Lemma checkCudaErrors_done {A : Type} (c : call) (st : Z) (a b : A) :
  checkCudaErrors c st a = Done b -> st = cudaSuccess /\ b = a.
Proof.
  unfold checkCudaErrors.
  destruct (st =? cudaSuccess) eqn:E; intros H; [| discriminate].
  apply Z.eqb_eq in E. split; congruence.
Qed.

(** The log grows by exactly the call made. *)
Lemma call_cudaMalloc_calls (w : world R) (bytes : Z) :
  calls (call_cudaMalloc w bytes).2 = calls w ++ [CudaMalloc bytes].
Proof.
  unfold call_cudaMalloc. destruct (cudaMalloc (machine w) bytes) as [[st p] m].
  reflexivity.
Qed.

Lemma call_cudaFree_calls (w : world R) (p : ptr) :
  calls (call_cudaFree w p).2 = calls w ++ [CudaFree p].
Proof.
  unfold call_cudaFree. destruct (cudaFree (machine w) p) as [st m]. reflexivity.
Qed.

(** [gpu_malloc] is fatal on every status but success. *)
Lemma gpu_malloc_fatal (n : Z) (w : world R) :
  (cudaMalloc (machine w) (size_t_mul sizeofT n)).1.1 ≠ cudaSuccess ->
  gpu_malloc sizeofT n w =
    Fatal (CudaMalloc (size_t_mul sizeofT n))
          (cudaMalloc (machine w) (size_t_mul sizeofT n)).1.1.
Proof.
  unfold gpu_malloc, call_cudaMalloc.
  destruct (cudaMalloc (machine w) (size_t_mul sizeofT n)) as [[st p] m]; simpl.
  apply checkCudaErrors_failure.
Qed.

(** When [gpu_malloc] completes, one [cudaMalloc] of [sizeof(T) * n] bytes is
    on record and the pointer is the runtime's. *)
Lemma gpu_malloc_done (n : Z) (w w' : world R) (p : ptr) :
  gpu_malloc sizeofT n w = Done (p, w') ->
  calls w' = calls w ++ [CudaMalloc (size_t_mul sizeofT n)] /\
  p = (cudaMalloc (machine w) (size_t_mul sizeofT n)).1.2.
Proof.
  unfold gpu_malloc, call_cudaMalloc.
  destruct (cudaMalloc (machine w) (size_t_mul sizeofT n)) as [[st q] m]; simpl.
  intros H. apply checkCudaErrors_done in H as [_ H].
  inversion H; subst. split; reflexivity.
Qed.

(** [gpu_free] completes whatever [cudaFree] answers. *)
Lemma gpu_free_done (p : ptr) (w : world R) :
  gpu_free p w = Done (if non_null p then (call_cudaFree w p).2 else w).
Proof.
  unfold gpu_free. destruct (non_null p); [| reflexivity].
  destruct (call_cudaFree w p) as [st w']. reflexivity.
Qed.

Lemma gpu_free_calls (p : ptr) (w w' : world R) :
  gpu_free p w = Done w' ->
  calls w' = calls w ++ (if non_null p then [CudaFree p] else []).
Proof.
  rewrite gpu_free_done. intros H. inversion H; subst; clear H.
  destruct (non_null p).
  - apply call_cudaFree_calls.
  - symmetry. apply app_nil_r.
Qed.

(** Both copies are fatal on every status but success, once both pointers
    are non-null. *)
Lemma gpu_memcpy_h2d_fatal (device host : ptr) (n : Z) (w : world R) :
  host ≠ nullptr -> device ≠ nullptr ->
  (cudaMemcpy (machine w) device host (size_t_mul sizeofT n)
     cudaMemcpyHostToDevice).1 ≠ cudaSuccess ->
  exists c st, gpu_memcpy_h2d sizeofT device host n w = Fatal c st /\ st ≠ cudaSuccess.
Proof.
  intros Hh Hd Hst. unfold gpu_memcpy_h2d, call_cudaMemcpy.
  apply non_null_true in Hh, Hd. rewrite Hh, Hd. simpl.
  destruct (cudaMemcpy _ _ _ _ _) as [st m]; simpl in *.
  eexists _, st. split; [apply checkCudaErrors_failure|]; assumption.
Qed.

Lemma gpu_memcpy_d2h_fatal (host device : ptr) (n : Z) (w : world R) :
  host ≠ nullptr -> device ≠ nullptr ->
  (cudaMemcpy (machine w) host device (size_t_mul sizeofT n)
     cudaMemcpyDeviceToHost).1 ≠ cudaSuccess ->
  exists c st, gpu_memcpy_d2h sizeofT host device n w = Fatal c st /\ st ≠ cudaSuccess.
Proof.
  intros Hh Hd Hst. unfold gpu_memcpy_d2h, call_cudaMemcpy.
  apply non_null_true in Hh, Hd. rewrite Hh, Hd. simpl.
  destruct (cudaMemcpy _ _ _ _ _) as [st m]; simpl in *.
  eexists _, st. split; [apply checkCudaErrors_failure|]; assumption.
Qed.

End PrimitiveFacts.

(** ** The handle, for every runtime *)

Section HandleFacts.

Context {R : Type} {RT : DeviceRuntime R}.
Variable sizeofT : Z.

Lemma isExternal_true (h : DevicePtrWrapper) :
  isExternal h = true <-> d_external_ h ≠ nullptr.
Proof. apply non_null_true. Qed.

Lemma isExternal_false (h : DevicePtrWrapper) :
  isExternal h = false <-> d_external_ h = nullptr.
Proof. apply non_null_false. Qed.

Lemma get_external (h : DevicePtrWrapper) :
  d_external_ h ≠ nullptr -> get h = d_external_ h.
Proof. intros H. unfold get. apply isExternal_true in H. rewrite H. reflexivity. Qed.

Lemma get_internal (h : DevicePtrWrapper) :
  d_external_ h = nullptr -> get h = d_internal_ h.
Proof. intros H. unfold get. apply isExternal_false in H. rewrite H. reflexivity. Qed.

(** Branch 1: an external pointer is set. *)
Lemma allocate_external (n : Z) (h : DevicePtrWrapper) (w : world R) :
  d_external_ h ≠ nullptr -> allocate sizeofT n h w = Done (h, w).
Proof.
  intros H. apply isExternal_true in H. unfold allocate. rewrite H. reflexivity.
Qed.

(** Branch 3: the buffer held is large enough. *)
Lemma allocate_reuse (n : Z) (h : DevicePtrWrapper) (w : world R) :
  d_internal_ h ≠ nullptr -> n <= size_ h -> allocate sizeofT n h w = Done (h, w).
Proof.
  intros Hi Hn. unfold allocate.
  destruct (isExternal h); [reflexivity |]. simpl.
  apply non_null_true in Hi. rewrite Hi. simpl.
  assert ((size_ h <? n) = false) as -> by (apply Z.ltb_ge; lia).
  assert ((size_ h >=? n) = true) as -> by (apply Z.geb_le; lia).
  reflexivity.
Qed.

(** Branches 2 and 4: no external pointer, and no buffer or one too small.
    The old buffer, if any, goes to [gpu_free] and [gpu_malloc] follows. *)
Lemma allocate_fresh_buffer (n : Z) (h : DevicePtrWrapper) (w : world R) :
  d_external_ h = nullptr ->
  d_internal_ h = nullptr \/ size_ h < n ->
  allocate sizeofT n h w =
    (w1 ← gpu_free (d_internal_ h) w;
     '(p, w2) ← gpu_malloc sizeofT n w1;
     Done ({| d_external_ := d_external_ h; d_internal_ := p; size_ := n |}, w2)).
Proof.
  intros He Hc. apply isExternal_false in He. unfold allocate. rewrite He. simpl.
  destruct (non_null (d_internal_ h)) eqn:Hnn; simpl.
  - destruct Hc as [Hc | Hc]; [apply non_null_false in Hc; congruence |].
    assert ((size_ h <? n) = true) as -> by (apply Z.ltb_lt; lia).
    assert ((size_ h >=? n) = false) as ->.
    { rewrite Z.geb_leb. apply Z.leb_gt. lia. }
    reflexivity.
  - rewrite (gpu_free_done (d_internal_ h) w), Hnn. reflexivity.
Qed.

(** What a completed [allocate] has done: nothing at all, or one
    free-and-allocate, according to the state it was called in. *)
Lemma allocate_done (n : Z) (h h' : DevicePtrWrapper) (w w' : world R) :
  allocate sizeofT n h w = Done (h', w') ->
  (h' = h /\ w' = w /\
   (d_external_ h ≠ nullptr \/ (d_internal_ h ≠ nullptr /\ n <= size_ h)))
  \/
  (d_external_ h = nullptr /\ (d_internal_ h = nullptr \/ size_ h < n) /\
   d_external_ h' = d_external_ h /\ size_ h' = n /\
   calls w' = calls w ++ realloc_calls sizeofT n h).
Proof.
  intros H.
  destruct (decide (d_external_ h = nullptr)) as [He | He].
  - destruct (decide (d_internal_ h = nullptr \/ size_ h < n)) as [Hc | Hc].
    + right. rewrite (allocate_fresh_buffer n h w He Hc) in H.
      rewrite gpu_free_done in H. simpl in H.
      destruct (gpu_malloc sizeofT n _) as [[p w2] | c st] eqn:Hm; simpl in H;
        [| discriminate].
      inversion H; subst; clear H. simpl.
      apply gpu_malloc_done in Hm as [Hm _]. rewrite Hm.
      repeat split; try assumption. unfold realloc_calls.
      destruct (non_null (d_internal_ h)).
      * rewrite call_cudaFree_calls, <- app_assoc. reflexivity.
      * reflexivity.
    + assert (d_internal_ h ≠ nullptr /\ n <= size_ h) as [Hi Hn].
      { split; [intros E; apply Hc; left; exact E | lia]. }
      rewrite (allocate_reuse n h w Hi Hn) in H. inversion H; subst.
      left. repeat split. right. split; assumption.
  - rewrite (allocate_external n h w He) in H. inversion H; subst.
    left. repeat split. left. assumption.
Qed.

(** C5: on a handle whose external pointer is non-null, [allocate] with any
    size completes with the very same handle (internal pointer and recorded
    capacity included) and the very same world (no runtime call, hence no
    allocation), and [get] returns the external pointer. *)
Theorem allocate_keeps_borrowed_handle (n : Z) (h : DevicePtrWrapper) (w : world R) :
  d_external_ h ≠ nullptr ->
  allocate sizeofT n h w = Done (h, w) /\ get h = d_external_ h.
Proof.
  intros He. split.
  - apply allocate_external. exact He.
  - apply get_external. exact He.
Qed.

(** C6: [get] returns the external pointer when it is non-null and the
    internal pointer (null or not) otherwise; as a command it returns that
    value and changes neither the handle nor the world, so it issues no
    runtime call; the conversion to [bool] is true exactly when [get] is
    non-null; a default-constructed handle has [get] null and converts to
    false. *)
Theorem get_is_the_read_path (h : DevicePtrWrapper) (w : world R) :
  get h = (if decide (d_external_ h = nullptr) then d_internal_ h else d_external_ h) /\
  exec sizeofT Get h w = Done (VPtr (get h), h, w) /\
  exec sizeofT ToBool h w = Done (VBool (to_bool h), h, w) /\
  to_bool h = bool_decide (get h ≠ nullptr) /\
  get fresh = nullptr /\
  to_bool fresh = false.
Proof.
  repeat split.
  - case_decide as He.
    + apply get_internal. exact He.
    + apply get_external. exact He.
  - unfold to_bool. destruct (decide (get h = nullptr)) as [E | E].
    + rewrite E. reflexivity.
    + rewrite bool_decide_eq_true_2 by exact E.
      apply negb_true_iff, Z.eqb_neq. exact E.
Qed.

(** C7: when the host pointer or the device pointer is null, both copies
    complete (no failure) with the world they were given: no runtime call is
    made and the machine state, which holds the contents of every host and
    device buffer, is the same, whatever the element count. *)
Theorem memcpy_null_is_noop (device host : ptr) (n : Z) (w : world R) :
  host = nullptr \/ device = nullptr ->
  gpu_memcpy_h2d sizeofT device host n w = Done w /\
  gpu_memcpy_d2h sizeofT host device n w = Done w.
Proof.
  intros Hnull.
  assert (negb (non_null host) || negb (non_null device) = true) as Hguard.
  { apply orb_true_iff.
    destruct Hnull as [-> | ->]; [left | right]; reflexivity. }
  unfold gpu_memcpy_h2d, gpu_memcpy_d2h. rewrite Hguard. split; reflexivity.
Qed.

(** C8: [set_external] with a null pointer gives the state [unset_external]
    gives; and setting any external pointer and then unsetting it makes
    [get] return the internal pointer, in particular on a handle whose
    internal buffer is already allocated. *)
Theorem set_null_is_unset_and_round_trip (p : ptr) (h : DevicePtrWrapper) :
  set_external nullptr h = unset_external h /\
  get (unset_external (set_external p h)) = d_internal_ h /\
  d_internal_ (unset_external (set_external p h)) = d_internal_ h /\
  size_ (unset_external (set_external p h)) = size_ h.
Proof.
  split; [reflexivity |].
  split; [apply (get_internal (unset_external (set_external p h))); reflexivity |].
  split; reflexivity.
Qed.

(** C9: the destructor is [gpu_free] of the internal pointer.  It always
    completes.  When the internal pointer is non-null the world it leaves is
    the one [cudaFree] of that pointer answers with, that single call added
    to the log; when it is null the world is left as it was, no call made.
    The external pointer plays no part: it is neither read nor handed to
    the runtime.  [gpu_free] on a null pointer completes without any
    runtime call. *)
Theorem destroy_frees_internal_only (h : DevicePtrWrapper) (w : world R) :
  destroy h w = gpu_free (d_internal_ h) w /\
  destroy h w =
    Done (if decide (d_internal_ h = nullptr) then w
          else World (cudaFree (machine w) (d_internal_ h)).2
                     (calls w ++ [CudaFree (d_internal_ h)])) /\
  (exists w', destroy h w = Done w' /\
     calls w' = calls w ++
       (if decide (d_internal_ h = nullptr) then [] else [CudaFree (d_internal_ h)])) /\
  (forall (e : ptr) (n : Z),
     destroy {| d_external_ := e; d_internal_ := nullptr; size_ := n |} w = Done w) /\
  gpu_free nullptr w = Done w.
Proof.
  assert (destroy h w =
            Done (if decide (d_internal_ h = nullptr) then w
                  else World (cudaFree (machine w) (d_internal_ h)).2
                             (calls w ++ [CudaFree (d_internal_ h)]))) as Hpin.
  { unfold destroy. case_decide as Hi.
    - apply non_null_false in Hi. rewrite Hi. reflexivity.
    - apply non_null_true in Hi. rewrite Hi, gpu_free_done, Hi.
      unfold call_cudaFree.
      destruct (cudaFree (machine w) (d_internal_ h)) as [st m]. reflexivity. }
  split; [| split; [exact Hpin | split; [| split; [intros e n |]; reflexivity]]].
  - unfold destroy. destruct (non_null (d_internal_ h)) eqn:Hnn; [reflexivity |].
    rewrite gpu_free_done, Hnn. reflexivity.
  - rewrite Hpin. eexists. split; [reflexivity |].
    case_decide; [symmetry; apply app_nil_r | reflexivity].
Qed.

(** C10: assigning a raw pointer gives exactly the state [set_external]
    gives, null pointer included; as commands the two have the same outcome,
    which only replaces the external pointer: the internal pointer, the
    recorded capacity and the world (so the log of runtime calls) are kept. *)
Theorem assign_ptr_is_set_external (p : ptr) (h : DevicePtrWrapper) (w : world R) :
  assign_ptr p h = set_external p h /\
  exec sizeofT (AssignPtr p) h w = exec sizeofT (SetExternal p) h w /\
  exec sizeofT (SetExternal p) h w =
    Done (VUnit,
          {| d_external_ := p; d_internal_ := d_internal_ h; size_ := size_ h |},
          w).
Proof.
  repeat split.
Qed.

(** ** Sequences of calls on one handle *)

Lemma mallocs_app (l1 l2 : list call) : mallocs (l1 ++ l2) = mallocs l1 ++ mallocs l2.
Proof. apply omap_app. Qed.

Lemma mallocs_realloc_calls (n : Z) (h : DevicePtrWrapper) :
  mallocs (realloc_calls sizeofT n h) = [size_t_mul sizeofT n].
Proof.
  unfold realloc_calls. destruct (non_null (d_internal_ h)); reflexivity.
Qed.

(** [allocate] on a handle with neither pointer set: one [cudaMalloc], whose
    answer becomes the internal pointer. *)
Lemma allocate_on_empty (n : Z) (h h1 : DevicePtrWrapper) (w w1 : world R) :
  d_external_ h = nullptr -> d_internal_ h = nullptr ->
  allocate sizeofT n h w = Done (h1, w1) ->
  h1 = {| d_external_ := nullptr;
          d_internal_ := (cudaMalloc (machine w) (size_t_mul sizeofT n)).1.2;
          size_ := n |} /\
  calls w1 = calls w ++ [CudaMalloc (size_t_mul sizeofT n)].
Proof.
  intros He Hi H.
  rewrite (allocate_fresh_buffer n h w He (or_introl Hi)) in H.
  rewrite Hi, He in H. simpl in H.
  destruct (gpu_malloc sizeofT n w) as [[p w2] | c st] eqn:Hm; simpl in H;
    [| discriminate].
  inversion H; subst; clear H.
  apply gpu_malloc_done in Hm as [Hc Hp]. subst p. split; [reflexivity | exact Hc].
Qed.

Lemma run_cons_done (o : op) (ops : list op) (h h' : DevicePtrWrapper) (w w' : world R) :
  run sizeofT (o :: ops) h w = Done (h', w') ->
  exists v h1 w1,
    exec sizeofT o h w = Done (v, h1, w1) /\ run sizeofT ops h1 w1 = Done (h', w').
Proof.
  simpl. destruct (exec sizeofT o h w) as [[[v h1] w1] | c st]; simpl; intros H;
    [| discriminate].
  exists v, h1, w1. split; [reflexivity | exact H].
Qed.

Lemma exec_allocate_done (n : Z) (v : value) (h h1 : DevicePtrWrapper) (w w1 : world R) :
  exec sizeofT (Allocate n) h w = Done (v, h1, w1) ->
  allocate sizeofT n h w = Done (h1, w1).
Proof.
  simpl. destruct (allocate sizeofT n h w) as [[h2 w2] | c st]; simpl; intros H;
    [| discriminate].
  inversion H; subst. reflexivity.
Qed.

(** One command either keeps the internal pointer and the capacity, or was
    given a handle without a buffer, or has handed the buffer to [cudaFree]. *)
Lemma exec_keeps_or_frees (o : op) (v : value) (h h1 : DevicePtrWrapper) (w w1 : world R) :
  exec sizeofT o h w = Done (v, h1, w1) ->
  exists evs, calls w1 = calls w ++ evs /\
    ((d_internal_ h1 = d_internal_ h /\ size_ h1 = size_ h) \/
     d_internal_ h = nullptr \/
     CudaFree (d_internal_ h) ∈ evs).
Proof.
  destruct o; intros H;
    try (inversion H; subst; exists []; rewrite app_nil_r; split;
         [reflexivity | left; split; reflexivity]).
  apply exec_allocate_done, allocate_done in H
    as [(-> & -> & _) | (_ & _ & _ & _ & Hc)].
  - exists []. rewrite app_nil_r. split; [reflexivity | left; split; reflexivity].
  - exists (realloc_calls sizeofT n h). split; [exact Hc |]. right.
    unfold realloc_calls. destruct (non_null (d_internal_ h)) eqn:Hnn.
    + right. apply elem_of_app. left. apply list_elem_of_here.
    + left. apply non_null_false. exact Hnn.
Qed.

Lemma run_keeps_or_frees (ops : list op) (h h' : DevicePtrWrapper) (w w' : world R) :
  run sizeofT ops h w = Done (h', w') ->
  exists evs, calls w' = calls w ++ evs /\
    ((d_internal_ h' = d_internal_ h /\ size_ h' = size_ h) \/
     d_internal_ h = nullptr \/
     CudaFree (d_internal_ h) ∈ evs).
Proof.
  revert h w. induction ops as [| o ops IH]; intros h w H.
  - inversion H; subst. exists []. rewrite app_nil_r.
    split; [reflexivity | left; split; reflexivity].
  - apply run_cons_done in H as (v & h1 & w1 & Hstep & Hrest).
    apply exec_keeps_or_frees in Hstep as (evs1 & Hc1 & Hk1).
    apply IH in Hrest as (evs2 & Hc2 & Hk2).
    exists (evs1 ++ evs2). split.
    { rewrite Hc2, Hc1, app_assoc. reflexivity. }
    destruct Hk1 as [[Hp1 Hs1] | [Hn1 | Hf1]].
    + destruct Hk2 as [[Hp2 Hs2] | [Hn2 | Hf2]].
      * left. split; congruence.
      * right. left. congruence.
      * right. right. rewrite <- Hp1. apply elem_of_app. right. exact Hf2.
    + right. left. exact Hn1.
    + right. right. apply elem_of_app. left. exact Hf1.
Qed.

(** [gpu_malloc] either completes with its one call on record or is fatal on
    that call. *)
Lemma gpu_malloc_outcome (n : Z) (w : world R) :
  (exists p w', gpu_malloc sizeofT n w = Done (p, w') /\
     calls w' = calls w ++ [CudaMalloc (size_t_mul sizeofT n)]) \/
  (exists st, st ≠ cudaSuccess /\
     gpu_malloc sizeofT n w = Fatal (CudaMalloc (size_t_mul sizeofT n)) st).
Proof.
  destruct (gpu_malloc sizeofT n w) as [[p w'] | c st] eqn:Hm.
  - left. exists p, w'. split; [reflexivity |].
    apply gpu_malloc_done in Hm as [Hc _]. exact Hc.
  - right. exists st. revert Hm. unfold gpu_malloc, call_cudaMalloc.
    destruct (cudaMalloc (machine w) (size_t_mul sizeofT n)) as [[st' q] m]; simpl.
    unfold checkCudaErrors. destruct (st' =? cudaSuccess) eqn:E; [discriminate |].
    intros H. inversion H; subst. split; [apply Z.eqb_neq; exact E | reflexivity].
Qed.

(** Where [allocate] has to provide a buffer it always asks the runtime: it
    completes with the free-and-allocate calls on record and the new
    capacity, or it is fatal on the [cudaMalloc] for the requested size. *)
Lemma allocate_needed (n : Z) (h : DevicePtrWrapper) (w : world R) :
  d_external_ h = nullptr ->
  d_internal_ h = nullptr \/ size_ h < n ->
  (exists h' w', allocate sizeofT n h w = Done (h', w') /\ size_ h' = n /\
     calls w' = calls w ++ realloc_calls sizeofT n h) \/
  (exists st, st ≠ cudaSuccess /\
     allocate sizeofT n h w = Fatal (CudaMalloc (size_t_mul sizeofT n)) st).
Proof.
  intros He Hc. rewrite (allocate_fresh_buffer n h w He Hc), gpu_free_done. simpl.
  set (w1 := if non_null (d_internal_ h) then (call_cudaFree w (d_internal_ h)).2 else w).
  assert (calls w1 = calls w ++
            (if non_null (d_internal_ h) then [CudaFree (d_internal_ h)] else []))
    as Hw1.
  { subst w1. destruct (non_null (d_internal_ h)).
    - apply call_cudaFree_calls.
    - symmetry. apply app_nil_r. }
  destruct (gpu_malloc_outcome n w1) as [(p & w2 & Hm & Hc2) | (st & Hst & Hm)];
    rewrite Hm; simpl.
  - left. eexists _, w2. split; [reflexivity |]. split; [reflexivity |].
    rewrite Hc2, Hw1, <- app_assoc. reflexivity.
  - right. exists st. split; [exact Hst | reflexivity].
Qed.

(** On a default-constructed handle, a second [allocate] for no more than
    the first is absorbed once the first has produced a buffer. *)
Lemma allocate_smaller_absorbed (n1 n2 : Z) (w : world R) :
  n1 <= n2 ->
  (cudaMalloc (machine w) (size_t_mul sizeofT n2)).1.2 ≠ nullptr ->
  run sizeofT [Allocate n2; Allocate n1] fresh w = run sizeofT [Allocate n2] fresh w.
Proof.
  intros Hle Hptr. simpl.
  destruct (allocate sizeofT n2 fresh w) as [[h1 w1] | c st] eqn:Ha; simpl;
    [| reflexivity].
  apply allocate_on_empty in Ha as [-> _]; [| reflexivity | reflexivity].
  rewrite allocate_reuse; [reflexivity | exact Hptr | exact Hle].
Qed.

(** C2, as the code has it: take n1 <= n2, a default-constructed handle, and
    a runtime whose allocation for n2 answers with a non-null pointer.
    [allocate n1] followed by [allocate n2] is, when n1 = n2, [allocate n2]
    alone, and when n1 < n2 the program: [gpu_malloc] for n1, [gpu_free] of
    its answer, [gpu_malloc] for n2.  When it completes the capacity is n2
    and the runtime calls added are, if n1 = n2, the one [cudaMalloc] for
    n2, and if n1 < n2, the [cudaMalloc] for n1, the [cudaFree] of its
    answer when that answer is non-null, and the [cudaMalloc] for n2: one
    underlying allocation, or two.  [allocate n2] followed by [allocate n1]
    has the outcome of [allocate n2] alone, which is one [gpu_malloc] for n2
    and, when it completes, leaves capacity n2 and that [cudaMalloc] as its
    only runtime call.  An allocation for n elements asks for
    [sizeof(T) * n] bytes computed in [size_t], which is exactly that
    product when it fits. *)
Theorem allocate_twice_on_fresh (n1 n2 : Z) (w : world R) :
  n1 <= n2 ->
  (cudaMalloc (machine w) (size_t_mul sizeofT n2)).1.2 ≠ nullptr ->
  run sizeofT [Allocate n1; Allocate n2] fresh w =
    (if decide (n1 = n2) then run sizeofT [Allocate n2] fresh w
     else
       '(p1, w1) ← gpu_malloc sizeofT n1 w;
       w1' ← gpu_free p1 w1;
       '(p2, w2) ← gpu_malloc sizeofT n2 w1';
       Done ({| d_external_ := nullptr; d_internal_ := p2; size_ := n2 |}, w2)) /\
  (forall h12 w12,
     run sizeofT [Allocate n1; Allocate n2] fresh w = Done (h12, w12) ->
     size_ h12 = n2 /\
     exists evs, calls w12 = calls w ++ evs /\
       evs =
         (if decide (n1 = n2) then [CudaMalloc (size_t_mul sizeofT n2)]
          else
            CudaMalloc (size_t_mul sizeofT n1)
            :: (if non_null (cudaMalloc (machine w) (size_t_mul sizeofT n1)).1.2
                then [CudaFree (cudaMalloc (machine w) (size_t_mul sizeofT n1)).1.2]
                else [])
            ++ [CudaMalloc (size_t_mul sizeofT n2)]) /\
       mallocs evs =
         if decide (n1 = n2) then [size_t_mul sizeofT n2]
         else [size_t_mul sizeofT n1; size_t_mul sizeofT n2]) /\
  run sizeofT [Allocate n2; Allocate n1] fresh w = run sizeofT [Allocate n2] fresh w /\
  run sizeofT [Allocate n2] fresh w =
    ('(p, w') ← gpu_malloc sizeofT n2 w;
     Done ({| d_external_ := nullptr; d_internal_ := p; size_ := n2 |}, w')) /\
  (forall h2 w2,
     run sizeofT [Allocate n2] fresh w = Done (h2, w2) ->
     size_ h2 = n2 /\
     calls w2 = calls w ++ [CudaMalloc (size_t_mul sizeofT n2)]) /\
  (forall n, 0 <= sizeofT * n < size_t_modulus -> size_t_mul sizeofT n = sizeofT * n).
Proof.
  intros Hle Hptr.
  assert (forall n, run sizeofT [Allocate n] fresh w =
            ('(p, w') ← gpu_malloc sizeofT n w;
             Done ({| d_external_ := nullptr; d_internal_ := p; size_ := n |}, w')))
    as Hone.
  { intros n. cbn [run exec].
    rewrite (allocate_fresh_buffer n fresh w eq_refl (or_introl eq_refl)).
    rewrite gpu_free_done. simpl.
    destruct (gpu_malloc sizeofT n w) as [[p w'] | c st]; reflexivity. }
  split; [| split; [| split; [| split; [| split]]]].
  - (* the outcome, by the primitives *)
    case_decide as Heq.
    + subst n2. apply allocate_smaller_absorbed; [lia | exact Hptr].
    + cbn [run exec].
      rewrite (allocate_fresh_buffer n1 fresh w eq_refl (or_introl eq_refl)).
      rewrite gpu_free_done. simpl.
      destruct (gpu_malloc sizeofT n1 w) as [[p1 w1] | c st]; simpl;
        [| reflexivity].
      rewrite allocate_fresh_buffer; [| reflexivity | right; simpl; lia].
      simpl. destruct (gpu_free p1 w1) as [w1' | c st]; simpl; [| reflexivity].
      destruct (gpu_malloc sizeofT n2 w1') as [[p2 w2] | c st]; reflexivity.
  - (* the calls on record *)
    intros h12 w12 H12.
    apply run_cons_done in H12 as (v1 & h1 & w1 & Ha & H12).
    apply run_cons_done in H12 as (v2 & h2 & w2 & Hb & H12).
    inversion H12; subst h2 w2; clear H12.
    apply exec_allocate_done in Ha, Hb.
    apply allocate_on_empty in Ha as [Hh1 Hc1]; [| reflexivity | reflexivity].
    apply allocate_done in Hb
      as [(-> & -> & Hwhy) | (_ & Hwhy & _ & Hsz & Hc2)].
    + (* the second call returned early: the sizes are equal *)
      assert (n1 = n2) as Heq.
      { destruct Hwhy as [Hext | [_ Hn]]; subst h1; simpl in *;
          [contradiction | lia]. }
      split; [subst h1; simpl; exact Heq |].
      exists [CudaMalloc (size_t_mul sizeofT n1)]. split; [exact Hc1 |].
      rewrite !decide_True by exact Heq. subst n2. split; reflexivity.
    + (* the second call allocated again: the first size was smaller *)
      assert (n1 < n2) as Hlt.
      { destruct Hwhy as [Hnull | Hlt]; subst h1; simpl in *; [| exact Hlt].
        destruct (decide (n1 = n2)) as [-> | Hne]; [contradiction | lia]. }
      split; [exact Hsz |].
      exists ([CudaMalloc (size_t_mul sizeofT n1)] ++ realloc_calls sizeofT n2 h1).
      split; [rewrite Hc2, Hc1, app_assoc; reflexivity |].
      rewrite !decide_False by lia. split.
      * subst h1. reflexivity.
      * rewrite mallocs_app, mallocs_realloc_calls. reflexivity.
  - apply allocate_smaller_absorbed; assumption.
  - apply Hone.
  - intros h2 w2 H2.
    apply run_cons_done in H2 as (v1 & h1 & w1 & Ha & H2).
    inversion H2; subst h1 w1; clear H2.
    apply exec_allocate_done, allocate_on_empty in Ha as [-> Hc];
      [| reflexivity | reflexivity].
    split; [reflexivity | exact Hc].
  - intros n Hfit. unfold size_t_mul. apply Z.mod_small. exact Hfit.
Qed.

(** C4, as the code has it: after any sequence of the handle's calls, a
    capacity lower than at the start means that the handle held no buffer at
    the start or that its buffer has been handed to [cudaFree] on the way.
    A further [allocate n] asks the runtime for memory exactly when no
    external pointer is set and either no buffer is held or n exceeds the
    recorded capacity: otherwise it completes with the handle and the world
    untouched; in that case it completes with capacity n (larger than before
    if a buffer was held) after a [cudaMalloc] for n elements, preceded by
    the [cudaFree] of the buffer held, or is fatal on that [cudaMalloc]. *)
Theorem capacity_and_allocation_policy (ops : list op) (n : Z)
    (h h' : DevicePtrWrapper) (w w' : world R) :
  run sizeofT ops h w = Done (h', w') ->
  (exists evs, calls w' = calls w ++ evs /\
     (size_ h' < size_ h ->
      d_internal_ h = nullptr \/ CudaFree (d_internal_ h) ∈ evs)) /\
  (¬ (d_external_ h' = nullptr /\ (d_internal_ h' = nullptr \/ size_ h' < n)) ->
   allocate sizeofT n h' w' = Done (h', w')) /\
  (d_external_ h' = nullptr /\ (d_internal_ h' = nullptr \/ size_ h' < n) ->
   (exists h'' w'', allocate sizeofT n h' w' = Done (h'', w'') /\
      size_ h'' = n /\
      (d_internal_ h' ≠ nullptr -> size_ h' < size_ h'') /\
      calls w'' = calls w' ++ realloc_calls sizeofT n h' /\
      mallocs (realloc_calls sizeofT n h') = [size_t_mul sizeofT n]) \/
   (exists st, st ≠ cudaSuccess /\
      allocate sizeofT n h' w' = Fatal (CudaMalloc (size_t_mul sizeofT n)) st)).
Proof.
  intros Hrun. split; [| split].
  - apply run_keeps_or_frees in Hrun as (evs & Hc & Hk).
    exists evs. split; [exact Hc |]. intros Hlt.
    destruct Hk as [[_ Hs] | Hk]; [lia | exact Hk].
  - intros Hnot.
    destruct (decide (d_external_ h' = nullptr)) as [He | He];
      [| apply allocate_external; exact He].
    apply allocate_reuse.
    + intros Hi. apply Hnot. split; [exact He | left; exact Hi].
    + destruct (decide (size_ h' < n)) as [Hlt | Hge]; [| lia].
      contradiction Hnot. split; [exact He | right; exact Hlt].
  - intros [He Hc].
    destruct (allocate_needed n h' w' He Hc)
      as [(h'' & w'' & Ha & Hsz & Hcalls) | Hfatal]; [left | right; exact Hfatal].
    exists h'', w''. split; [exact Ha |]. split; [exact Hsz |].
    split; [| split; [exact Hcalls | apply mallocs_realloc_calls]].
    intros Hheld. destruct Hc as [Hnull | Hlt]; [contradiction | lia].
Qed.

(** ** Moving a handle that owns a buffer *)

(** The moved-from handle keeps its internal pointer: when both handles are
    destroyed the same pointer goes to [cudaFree] twice. *)
Lemma destroy_both_after_move (src : DevicePtrWrapper) (w : world R) :
  d_internal_ src ≠ nullptr ->
  exists w', destroy_both (move_construct src).1 (move_construct src).2 w = Done w' /\
    calls w' = calls w ++ [CudaFree (d_internal_ src); CudaFree (d_internal_ src)].
Proof.
  intros Hi. apply non_null_true in Hi.
  unfold destroy_both, destroy, move_construct. simpl.
  rewrite Hi, !gpu_free_done, Hi. simpl. rewrite gpu_free_done, Hi.
  eexists. split; [reflexivity |].
  rewrite !call_cudaFree_calls, <- app_assoc. reflexivity.
Qed.

(** Move assignment overwrites the destination's internal pointer without
    freeing it, and leaves the source's in both handles. *)
Lemma destroy_both_after_move_assign (dst src : DevicePtrWrapper) (w : world R) :
  d_internal_ src ≠ nullptr ->
  exists w', destroy_both (move_assign dst src).1 (move_assign dst src).2 w = Done w' /\
    calls w' = calls w ++ [CudaFree (d_internal_ src); CudaFree (d_internal_ src)].
Proof.
  intros Hi. apply non_null_true in Hi.
  unfold destroy_both, destroy, move_assign. simpl.
  rewrite Hi, !gpu_free_done, Hi. simpl. rewrite gpu_free_done, Hi.
  eexists. split; [reflexivity |].
  rewrite !call_cudaFree_calls, <- app_assoc. reflexivity.
Qed.

End HandleFacts.

(** ** The code on the simulated device *)

(** The simulated device refuses a request beyond its memory, and
    [gpu_malloc] turns the refusal into a fatal failure. *)
Example gpu_malloc_out_of_memory :
  gpu_malloc sizeof_float 1000 world0
  = Fatal (CudaMalloc 4000) cudaErrorMemoryAllocation.
Proof. vm_compute. reflexivity. Qed.

(** Four bytes copied to a fresh device buffer and back to host address 128
    arrive unchanged. *)
Example sim_copy_round_trip :
  ok_bytes
    ('(h, w1) ← allocate sizeof_float 1 fresh world0;
     w2 ← gpu_memcpy_h2d sizeof_float (get h) 64 1 w1;
     gpu_memcpy_d2h sizeof_float 128 (get h) 1 w2)
  = Some [Some 10; Some 20; Some 30; Some 40].
Proof. vm_compute. reflexivity. Qed.

(** C1, on the simulated device: a handle allocates four floats, a second
    handle is move-constructed from it, and both leave scope.  The buffer at
    4096 is handed to [cudaFree] twice: the moved-from handle's destructor
    releases it again. *)
Example moved_from_handle_frees_again :
  calls_after (move_construct_scope sizeof_float 4 world0)
  = Some [CudaMalloc 16; CudaFree 4096; CudaFree 4096] /\
  frees <$> calls_after (move_construct_scope sizeof_float 4 world0)
  = Some [4096; 4096].
Proof. split; vm_compute; reflexivity. Qed.

(** The same after a move assignment; the destination's own buffer, at 4352,
    is never freed. *)
Example move_assigned_handle_frees_again :
  calls_after (move_assign_scope sizeof_float 4 2 world0)
  = Some [CudaMalloc 16; CudaMalloc 8; CudaFree 4096; CudaFree 4096].
Proof. vm_compute. reflexivity. Qed.

(** A zero-byte request answered with a null pointer leaves the handle
    without a buffer, so the next [allocate(0)] asks the runtime again. *)
Example allocate_zero_twice :
  mallocs <$> calls_of (run sizeof_float [Allocate 0; Allocate 0] fresh world0)
  = Some [0; 0].
Proof. vm_compute. reflexivity. Qed.

(** C2 fails as stated: with n1 = 1 <= n2 = 2 on a default-constructed
    handle, [allocate(1)] then [allocate(2)] completes with two underlying
    allocations, of 4 and of 8 bytes, not one. *)
Lemma allocate_grow_allocates_twice :
  1 <= 2 /\
  mallocs <$> calls_of (run sizeof_float [Allocate 1; Allocate 2] fresh world0)
  = Some [4; 8].
Proof. split; [lia | vm_compute; reflexivity]. Qed.

(** Witness of C2's amended statement: sizes 1 and 2 on the simulated
    device, where all the runs complete and the first buffer, at 4096, is
    freed between the two allocations. *)
Lemma allocate_twice_on_fresh_witness :
  1 <= 2 /\
  (cudaMalloc (machine world0) (size_t_mul sizeof_float 2)).1.2 ≠ nullptr /\
  run sizeof_float [Allocate 1; Allocate 2] fresh world0 = Done (handle_1_2, world_1_2) /\
  run sizeof_float [Allocate 2] fresh world0 = Done (handle_2, world_2) /\
  (size_ handle_1_2 = 2 /\
   exists evs, calls world_1_2 = calls world0 ++ evs /\
     evs =
       (if decide (1 = 2) then [CudaMalloc (size_t_mul sizeof_float 2)]
        else
          CudaMalloc (size_t_mul sizeof_float 1)
          :: (if non_null (cudaMalloc (machine world0) (size_t_mul sizeof_float 1)).1.2
              then [CudaFree (cudaMalloc (machine world0) (size_t_mul sizeof_float 1)).1.2]
              else [])
          ++ [CudaMalloc (size_t_mul sizeof_float 2)]) /\
     mallocs evs =
       if decide (1 = 2) then [size_t_mul sizeof_float 2]
       else [size_t_mul sizeof_float 1; size_t_mul sizeof_float 2]) /\
  run sizeof_float [Allocate 2; Allocate 1] fresh world0
    = run sizeof_float [Allocate 2] fresh world0 /\
  (size_ handle_2 = 2 /\
   calls world_2 = calls world0 ++ [CudaMalloc (size_t_mul sizeof_float 2)]).
Proof.
  assert (1 <= 2) as H1 by lia.
  assert ((cudaMalloc (machine world0) (size_t_mul sizeof_float 2)).1.2 ≠ nullptr)
    as H2 by (vm_compute; discriminate).
  assert (run sizeof_float [Allocate 1; Allocate 2] fresh world0
          = Done (handle_1_2, world_1_2)) as H3 by (vm_compute; reflexivity).
  assert (run sizeof_float [Allocate 2] fresh world0
          = Done (handle_2, world_2)) as H4 by (vm_compute; reflexivity).
  destruct (allocate_twice_on_fresh sizeof_float 1 2 world0 H1 H2)
    as (_ & Hgrow & Habsorb & _ & Hone & _).
  exact (conj H1 (conj H2 (conj H3 (conj H4
           (conj (Hgrow _ _ H3) (conj Habsorb (Hone _ _ H4))))))).
Defined.

(** C3, on the simulated device: [cudaFree] of an address that is not a live
    block reports [cudaErrorInvalidValue], and [gpu_free] on that non-null
    pointer completes all the same, the call on record and the status
    dropped. *)
Example gpu_free_drops_failure :
  (cudaFree sim0 4096).1 = cudaErrorInvalidValue /\
  cudaErrorInvalidValue ≠ cudaSuccess /\
  gpu_free 4096 world0 = Done (World sim0 [CudaFree 4096]).
Proof. repeat split. discriminate. Qed.

(** C4 fails as stated: on a default-constructed handle (capacity 0, no
    external pointer) [allocate(0)] issues an underlying allocation although
    the requested size does not exceed the recorded capacity. *)
Lemma allocate_zero_on_fresh_allocates :
  calls_of (allocate sizeof_float 0 fresh world0) = Some [CudaMalloc 0] /\
  (size_ fresh <? 0) = false.
Proof. split; vm_compute; reflexivity. Qed.

(** Witness of C4's amended statement: a handle allocates two floats, borrows
    an external pointer (under which [allocate(5)] does nothing), gives it
    back, and is then asked for three floats. *)
Lemma capacity_and_allocation_policy_witness :
  run sizeof_float [Allocate 2; SetExternal 8192; Allocate 5; UnsetExternal; Get]
      fresh world0 = Done (handle_2, world_2) /\
  (exists evs, calls world_2 = calls world0 ++ evs /\
     (size_ handle_2 < size_ fresh ->
      d_internal_ fresh = nullptr \/ CudaFree (d_internal_ fresh) ∈ evs)) /\
  allocate sizeof_float 2 handle_2 world_2 = Done (handle_2, world_2) /\
  allocate sizeof_float 3 handle_2 world_2 = Done (handle_2_3, world_2_3) /\
  calls world_2_3 = calls world_2 ++ realloc_calls sizeof_float 3 handle_2.
Proof.
  assert (run sizeof_float
            [Allocate 2; SetExternal 8192; Allocate 5; UnsetExternal; Get]
            fresh world0 = Done (handle_2, world_2)) as H1
    by (vm_compute; reflexivity).
  destruct (capacity_and_allocation_policy sizeof_float _ 2 _ _ _ _ H1)
    as (Hseq & Hskip & _).
  split; [exact H1 |]. split; [exact Hseq |]. split.
  - apply Hskip. intros [_ [Hnull | Hlt]]; [discriminate Hnull | revert Hlt; simpl; lia].
  - split; vm_compute; reflexivity.
Defined.

(** Witness of C5: the borrowing handle, asked for three floats. *)
Lemma allocate_keeps_borrowed_handle_witness :
  d_external_ borrowed ≠ nullptr /\
  allocate sizeof_float 3 borrowed world0 = Done (borrowed, world0) /\
  get borrowed = d_external_ borrowed.
Proof.
  assert (d_external_ borrowed ≠ nullptr) as H by (vm_compute; discriminate).
  exact (conj H (allocate_keeps_borrowed_handle sizeof_float 3 borrowed world0 H)).
Defined.

(** Witness of C7: a null host pointer against the device address 4096. *)
Lemma memcpy_null_is_noop_witness :
  (nullptr = nullptr \/ 4096 = nullptr) /\
  gpu_memcpy_h2d sizeof_float 4096 nullptr 1 world_2 = Done world_2 /\
  gpu_memcpy_d2h sizeof_float nullptr 4096 1 world_2 = Done world_2.
Proof.
  assert (nullptr = nullptr \/ 4096 = nullptr) as H by (left; reflexivity).
  exact (conj H (memcpy_null_is_noop sizeof_float 4096 nullptr 1 world_2 H)).
Defined.

(** ** Using one handle *)

Section UsageFacts.

Context {R : Type} {RT : DeviceRuntime R}.
Variable sizeofT : Z.

(** Once [allocate n] has completed on a handle with no external pointer set,
    the recorded capacity is at least [n], no external pointer is set, [get]
    reads the internal pointer, and either the capacity is exactly [n] or
    nothing was touched. *)
Theorem allocate_provides_capacity (n : Z) (h h' : DevicePtrWrapper) (w w' : world R) :
  d_external_ h = nullptr ->
  allocate sizeofT n h w = Done (h', w') ->
  n <= size h' /\ isExternal h' = false /\ get h' = d_internal_ h' /\
  (size h' = n \/ (h' = h /\ w' = w)).
Proof.
  intros He Ha. unfold size.
  apply allocate_done in Ha
    as [(-> & -> & Hwhy) | (_ & _ & He' & Hsz & _)].
  - destruct Hwhy as [Hext | [_ Hn]]; [contradiction |].
    split; [exact Hn |]. split; [apply isExternal_false; exact He |].
    split; [apply get_internal; exact He | right; split; reflexivity].
  - rewrite He in He'. split; [lia |].
    split; [apply isExternal_false; exact He' |].
    split; [apply get_internal; exact He' | left; exact Hsz].
Qed.

(** Asking again for what [allocate] has just provided does nothing, as long
    as the handle reads a non-null pointer. *)
Theorem allocate_idempotent (n : Z) (h h1 : DevicePtrWrapper) (w w1 : world R) :
  allocate sizeofT n h w = Done (h1, w1) ->
  get h1 ≠ nullptr ->
  allocate sizeofT n h1 w1 = Done (h1, w1).
Proof.
  intros Ha Hget.
  destruct (decide (d_external_ h1 = nullptr)) as [He | He];
    [| apply allocate_external; exact He].
  rewrite (get_internal h1 He) in Hget.
  apply allocate_reuse; [exact Hget |].
  apply allocate_done in Ha as [(-> & _ & Hwhy) | (_ & _ & _ & Hsz & _)]; [| lia].
  destruct Hwhy as [Hext | [_ Hn]]; [contradiction | exact Hn].
Qed.

(** A handle that holds a buffer serves any series of requests within its
    capacity without a single runtime call: the handle and the world come
    back as they were. *)
Theorem allocate_within_capacity_is_free (ns : list Z) (h : DevicePtrWrapper)
    (w : world R) :
  d_internal_ h ≠ nullptr ->
  Forall (fun n => n <= size h) ns ->
  run sizeofT (Allocate <$> ns) h w = Done (h, w).
Proof.
  intros Hi Hall. induction Hall as [| n ns Hn _ IH]; [reflexivity |].
  cbn [fmap list_fmap run exec].
  rewrite (allocate_reuse sizeofT n h w Hi Hn). exact IH.
Qed.

(** While an external pointer is set, every series of [allocate] calls and
    accessors leaves the handle and the world as they were. *)
Theorem borrowed_handle_is_inert (ops : list op) (h : DevicePtrWrapper) (w : world R) :
  isExternal h = true ->
  forallb keeps_external ops = true ->
  run sizeofT ops h w = Done (h, w) /\ get h = d_external_ h.
Proof.
  intros Hext Hops. apply isExternal_true in Hext.
  split; [| apply get_external; exact Hext].
  induction ops as [| o ops IH]; [reflexivity |].
  simpl in Hops. apply andb_true_iff in Hops as [Ho Hops].
  destruct o; try discriminate Ho; cbn [run exec];
    try rewrite (allocate_external sizeofT n h w Hext); apply IH; exact Hops.
Qed.

(** [allocate] is fatal only on its own [cudaMalloc], with the status the
    runtime gave. *)
Lemma allocate_fatal (n : Z) (h : DevicePtrWrapper) (w : world R) (c : call) (st : Z) :
  allocate sizeofT n h w = Fatal c st ->
  c = CudaMalloc (size_t_mul sizeofT n) /\ st ≠ cudaSuccess.
Proof.
  intros Hf.
  destruct (decide (d_external_ h = nullptr)) as [He | He];
    [| rewrite (allocate_external sizeofT n h w He) in Hf; discriminate].
  destruct (decide (d_internal_ h = nullptr \/ size_ h < n)) as [Hc | Hc].
  - destruct (allocate_needed sizeofT n h w He Hc)
      as [(h' & w' & Ha & _) | (st' & Hst & Ha)]; rewrite Ha in Hf;
      [discriminate |].
    inversion Hf; subst. split; [reflexivity | exact Hst].
  - rewrite allocate_reuse in Hf; [discriminate | |].
    + intros Hi. apply Hc. left. exact Hi.
    + destruct (decide (size_ h < n)) as [Hlt | Hge]; [| lia].
      contradiction Hc. right. exact Hlt.
Qed.

(** No series of calls on a handle ends the process unless it contains an
    [allocate] call, and then only with a status other than success: setting,
    unsetting and reading a handle never fail. *)
Theorem only_allocate_can_be_fatal (ops : list op) (h : DevicePtrWrapper)
    (w : world R) (c : call) (st : Z) :
  run sizeofT ops h w = Fatal c st ->
  st ≠ cudaSuccess /\ exists n, Allocate n ∈ ops.
Proof.
  revert h w. induction ops as [| o ops IH]; intros h w Hf; [discriminate |].
  cbn [run] in Hf.
  destruct (exec sizeofT o h w) as [[[v h1] w1] | c' st'] eqn:Hstep; simpl in Hf.
  - apply IH in Hf as (Hst & n & Hin).
    split; [exact Hst |]. exists n. apply elem_of_cons. right. exact Hin.
  - inversion Hf; subst c' st'; clear Hf.
    destruct o; try discriminate Hstep.
    cbn [exec] in Hstep.
    destruct (allocate sizeofT n h w) as [[h2 w2] | c' st'] eqn:Ha;
      simpl in Hstep; [discriminate |].
    inversion Hstep; subst c' st'.
    apply allocate_fatal in Ha as [_ Hst].
    split; [exact Hst |]. exists n. apply list_elem_of_here.
Qed.

Lemma frees_app (l1 l2 : list call) : frees (l1 ++ l2) = frees l1 ++ frees l2.
Proof. apply omap_app. Qed.

Lemma frees_realloc_calls (n : Z) (h : DevicePtrWrapper) :
  Forall (fun p => p ≠ nullptr) (frees (realloc_calls sizeofT n h)).
Proof.
  unfold realloc_calls. destruct (non_null (d_internal_ h)) eqn:Hnn; simpl.
  - apply Forall_cons. split; [apply non_null_true; exact Hnn | apply Forall_nil_2].
  - apply Forall_nil_2.
Qed.

Lemma run_frees_non_null (ops : list op) (h h' : DevicePtrWrapper) (w w' : world R) :
  run sizeofT ops h w = Done (h', w') ->
  exists evs, calls w' = calls w ++ evs /\
    Forall (fun p => p ≠ nullptr) (frees evs).
Proof.
  revert h w. induction ops as [| o ops IH]; intros h w H.
  - inversion H; subst. exists []. rewrite app_nil_r.
    split; [reflexivity | apply Forall_nil_2].
  - apply run_cons_done in H as (v & h1 & w1 & Hstep & Hrest).
    apply IH in Hrest as (evs2 & Hc2 & Hf2).
    assert (exists evs1, calls w1 = calls w ++ evs1 /\
              Forall (fun p => p ≠ nullptr) (frees evs1)) as (evs1 & Hc1 & Hf1).
    { destruct o;
        try (inversion Hstep; subst; exists []; rewrite app_nil_r;
             split; [reflexivity | apply Forall_nil_2]).
      apply exec_allocate_done, allocate_done in Hstep
        as [(_ & -> & _) | (_ & _ & _ & _ & Hc)].
      - exists []. rewrite app_nil_r. split; [reflexivity | apply Forall_nil_2].
      - exists (realloc_calls sizeofT n h). split; [exact Hc |].
        apply frees_realloc_calls. }
    exists (evs1 ++ evs2). split; [rewrite Hc2, Hc1, app_assoc; reflexivity |].
    rewrite frees_app. apply Forall_app. split; assumption.
Qed.

(** Through any series of calls on a handle and its destruction, [cudaFree]
    is never handed a null pointer. *)
Theorem cudaFree_never_given_null (ops : list op) (h h' : DevicePtrWrapper)
    (w w' : world R) :
  run sizeofT ops h w = Done (h', w') ->
  exists w'' evs, destroy h' w' = Done w'' /\
    calls w'' = calls w ++ evs /\
    Forall (fun p => p ≠ nullptr) (frees evs).
Proof.
  intros Hrun. apply run_frees_non_null in Hrun as (evs & Hc & Hf).
  unfold destroy. destruct (non_null (d_internal_ h')) eqn:Hnn.
  - rewrite gpu_free_done, Hnn. eexists _, (evs ++ [CudaFree (d_internal_ h')]).
    split; [reflexivity |]. split.
    + rewrite call_cudaFree_calls, Hc, app_assoc. reflexivity.
    + rewrite frees_app. apply Forall_app. split; [exact Hf |].
      apply Forall_cons. split; [apply non_null_true; exact Hnn | apply Forall_nil_2].
  - exists w', evs. split; [reflexivity |]. split; assumption.
Qed.




(** Sizes are in elements: when [sizeof(T) * n] fits [size_t], [allocate n] on
    an empty handle asks the runtime for exactly that many bytes, in one
    call, and records the capacity [n]. *)
Theorem allocate_requests_bytes (n : Z) (h h' : DevicePtrWrapper) (w w' : world R) :
  0 <= sizeofT * n < size_t_modulus ->
  d_external_ h = nullptr ->
  d_internal_ h = nullptr ->
  allocate sizeofT n h w = Done (h', w') ->
  calls w' = calls w ++ [CudaMalloc (sizeofT * n)] /\
  size h' = n /\
  get h' = (cudaMalloc (machine w) (sizeofT * n)).1.2.
Proof.
  intros Hfit He Hi Ha.
  apply allocate_on_empty in Ha as [-> Hc]; [| exact He | exact Hi].
  unfold size_t_mul in *. rewrite Z.mod_small in * by exact Hfit.
  split; [exact Hc |]. split; reflexivity.
Qed.

Lemma call_cudaMemcpy_calls (w : world R) (dst src : ptr) (bytes : Z)
    (kind : cudaMemcpyKind) :
  calls (call_cudaMemcpy w dst src bytes kind).2
  = calls w ++ [CudaMemcpy dst src bytes kind].
Proof.
  unfold call_cudaMemcpy.
  destruct (cudaMemcpy (machine w) dst src bytes kind) as [st m]. reflexivity.
Qed.

(** A copy to the device followed by a copy back, all pointers non-null:
    when both complete, the runtime has been asked for exactly two
    transfers of the same [sizeof(T) * n] bytes, first into the device
    buffer from the host source, then from the device buffer into the host
    destination. *)
Theorem copies_issue_matching_transfers (device host host' : ptr) (n : Z)
    (w w2 : world R) :
  device ≠ nullptr -> host ≠ nullptr -> host' ≠ nullptr ->
  (w1 ← gpu_memcpy_h2d sizeofT device host n w;
   gpu_memcpy_d2h sizeofT host' device n w1) = Done w2 ->
  calls w2 = calls w ++
    [CudaMemcpy device host (size_t_mul sizeofT n) cudaMemcpyHostToDevice;
     CudaMemcpy host' device (size_t_mul sizeofT n) cudaMemcpyDeviceToHost].
Proof.
  intros Hd Hh Hh' H.
  apply non_null_true in Hd, Hh, Hh'.
  unfold gpu_memcpy_h2d, gpu_memcpy_d2h in H. rewrite Hd, Hh, Hh' in H.
  simpl in H.
  destruct (call_cudaMemcpy w device host _ _) as [st1 w1] eqn:E1.
  destruct (checkCudaErrors _ st1 w1) as [w1' | c st] eqn:C1; simpl in H;
    [| discriminate].
  apply checkCudaErrors_done in C1 as [_ ->].
  destruct (call_cudaMemcpy w1 host' device _ _) as [st2 w2'] eqn:E2.
  apply checkCudaErrors_done in H as [_ ->].
  pose proof (call_cudaMemcpy_calls w device host (size_t_mul sizeofT n)
                cudaMemcpyHostToDevice) as Hc1.
  pose proof (call_cudaMemcpy_calls w1 host' device (size_t_mul sizeofT n)
                cudaMemcpyDeviceToHost) as Hc2.
  rewrite E1 in Hc1. rewrite E2 in Hc2. simpl in Hc1, Hc2.
  rewrite Hc2, Hc1, <- app_assoc. reflexivity.
Qed.

(** [allocate] and the accessors never change the external pointer: after
    any series of them it is the one the handle started with. *)
Theorem external_pointer_is_framed (ops : list op) (h h' : DevicePtrWrapper)
    (w w' : world R) :
  forallb keeps_external ops = true ->
  run sizeofT ops h w = Done (h', w') ->
  d_external_ h' = d_external_ h /\ isExternal h' = isExternal h.
Proof.
  intros Hops Hrun.
  assert (d_external_ h' = d_external_ h) as He;
    [| split; [exact He | unfold isExternal; rewrite He; reflexivity]].
  revert h w Hrun. induction ops as [| o ops IH]; intros h w Hrun.
  - inversion Hrun; subst. reflexivity.
  - simpl in Hops. apply andb_true_iff in Hops as [Ho Hops].
    apply run_cons_done in Hrun as (v & h1 & w1 & Hstep & Hrest).
    rewrite (IH Hops h1 w1 Hrest).
    destruct o; try discriminate Ho; try (inversion Hstep; subst; reflexivity).
    apply exec_allocate_done, allocate_done in Hstep
      as [(-> & _ & _) | (_ & _ & He & _ & _)]; [reflexivity | exact He].
Qed.

End UsageFacts.

(** ** The accounts of a handle *)

Section LedgerFacts.

Context {R : Type} (RT : DeviceRuntime R).
Variable sizeofT : Z.

Lemma outstanding_app (held : ptr) (l1 l2 : list entry) :
  outstanding held (l1 ++ l2)
  = (outstanding held l1 ≫= fun p => outstanding p l2).
Proof.
  revert held. induction l1 as [| e l1 IH]; intros held; [reflexivity |].
  destruct e as [p | p]; simpl.
  - destruct (held =? nullptr); [apply IH | reflexivity].
  - destruct (non_null p && (p =? held)); [apply IH | reflexivity].
Qed.

Lemma ledger_gpu_free (p : ptr) (w : world (R * list entry)) :
  exists w', gpu_free (RT := ledger_runtime RT) p w = Done w' /\
    ledger w' = ledger w ++ (if non_null p then [Released p] else []).
Proof.
  unfold gpu_free, call_cudaFree, ledger. destruct (non_null p).
  - destruct w as [[m l] cs]. simpl. destruct (cudaFree m p) as [st m']. simpl.
    eexists. split; reflexivity.
  - exists w. split; [reflexivity |]. symmetry. apply app_nil_r.
Qed.

Lemma ledger_gpu_malloc (n : Z) (p : ptr) (w w' : world (R * list entry)) :
  gpu_malloc (RT := ledger_runtime RT) sizeofT n w = Done (p, w') ->
  ledger w' = ledger w ++ [Obtained p].
Proof.
  unfold gpu_malloc, call_cudaMalloc, ledger. destruct w as [[m l] cs]. simpl.
  destruct (cudaMalloc m (size_t_mul sizeofT n)) as [[st q] m']. simpl.
  unfold checkCudaErrors. destruct (st =? cudaSuccess); [| discriminate].
  intros H. inversion H; subst. reflexivity.
Qed.

(** One completed [allocate] keeps the accounts in order: it releases at most
    the pointer held, obtains at most one, and holds what is outstanding. *)
Lemma ledger_allocate (n : Z) (h h' : DevicePtrWrapper) (w w' : world (R * list entry)) :
  allocate (RT := ledger_runtime RT) sizeofT n h w = Done (h', w') ->
  exists es, ledger w' = ledger w ++ es /\
    outstanding (d_internal_ h) es = Some (d_internal_ h').
Proof.
  intros Ha.
  assert (h' = h /\ w' = w \/
          d_external_ h = nullptr /\ (d_internal_ h = nullptr \/ size_ h < n))
    as [[-> ->] | [He Hc]].
  { apply allocate_done in Ha as [(-> & -> & _) | (He & Hc & _)];
      [left; split; reflexivity | right; split; assumption]. }
  { exists []. rewrite app_nil_r. split; reflexivity. }
  rewrite (allocate_fresh_buffer sizeofT n h w He Hc) in Ha.
  destruct (ledger_gpu_free (d_internal_ h) w) as (w1 & Hf & Hl1).
  rewrite Hf in Ha. simpl in Ha.
  destruct (gpu_malloc sizeofT n w1) as [[p w2] | c st] eqn:Hm; simpl in Ha;
    [| discriminate].
  inversion Ha; subst h' w'; clear Ha. simpl.
  apply ledger_gpu_malloc in Hm.
  exists ((if non_null (d_internal_ h) then [Released (d_internal_ h)] else [])
          ++ [Obtained p]).
  split; [rewrite Hm, Hl1, app_assoc; reflexivity |].
  destruct (non_null (d_internal_ h)) eqn:Hnn; simpl.
  - rewrite Hnn, Z.eqb_refl. reflexivity.
  - apply non_null_false in Hnn. rewrite Hnn. reflexivity.
Qed.

Lemma ledger_exec (o : op) (v : value) (h h' : DevicePtrWrapper)
    (w w' : world (R * list entry)) :
  exec (RT := ledger_runtime RT) sizeofT o h w = Done (v, h', w') ->
  exists es, ledger w' = ledger w ++ es /\
    outstanding (d_internal_ h) es = Some (d_internal_ h').
Proof.
  destruct o; intros H;
    try (inversion H; subst; exists []; rewrite app_nil_r; split; reflexivity).
  apply exec_allocate_done in H. apply ledger_allocate in H. exact H.
Qed.

Lemma ledger_run (ops : list op) (h h' : DevicePtrWrapper)
    (w w' : world (R * list entry)) :
  run (RT := ledger_runtime RT) sizeofT ops h w = Done (h', w') ->
  exists es, ledger w' = ledger w ++ es /\
    outstanding (d_internal_ h) es = Some (d_internal_ h').
Proof.
  revert h w. induction ops as [| o ops IH]; intros h w H.
  - inversion H; subst. exists []. rewrite app_nil_r. split; reflexivity.
  - apply run_cons_done in H as (v & h1 & w1 & Hstep & Hrest).
    apply ledger_exec in Hstep as (es1 & Hl1 & Ho1).
    apply IH in Hrest as (es2 & Hl2 & Ho2).
    exists (es1 ++ es2). split; [rewrite Hl2, Hl1, app_assoc; reflexivity |].
    rewrite outstanding_app, Ho1. exact Ho2.
Qed.

(** Without moves a handle is a sound owner.  Take a handle that holds the
    pointer [d_internal_] (or none), any series of calls on it that
    completes, and its destruction: on the accounts of the runtime, memory
    was obtained only while none was held, every release was of the non-null
    pointer held at that moment, and nothing is outstanding at the end.  So
    each buffer the handle obtained is released exactly once, nothing else
    is released (no external pointer in particular), and nothing leaks. *)
Theorem handle_releases_what_it_obtains (ops : list op) (h h' : DevicePtrWrapper)
    (w w' : world (R * list entry)) :
  run (RT := ledger_runtime RT) sizeofT ops h w = Done (h', w') ->
  exists w'' es,
    destroy (RT := ledger_runtime RT) h' w' = Done w'' /\
    ledger w'' = ledger w ++ es /\
    outstanding (d_internal_ h) es = Some nullptr.
Proof.
  intros Hrun. apply ledger_run in Hrun as (es & Hl & Ho).
  unfold destroy. destruct (non_null (d_internal_ h')) eqn:Hnn.
  - destruct (ledger_gpu_free (d_internal_ h') w') as (w'' & Hf & Hl'').
    rewrite Hnn in Hl''. exists w'', (es ++ [Released (d_internal_ h')]).
    split; [exact Hf |]. split; [rewrite Hl'', Hl, app_assoc; reflexivity |].
    rewrite outstanding_app, Ho. simpl. rewrite Hnn, Z.eqb_refl. reflexivity.
  - exists w', es. split; [reflexivity |]. split; [exact Hl |].
    apply non_null_false in Hnn. rewrite Ho, Hnn. reflexivity.
Qed.

End LedgerFacts.

(** ** Transfers on the simulated device *)

Lemma lookup_copy_bytes (k : nat) (src dst : Z) (from to : gmap Z Z) (a : Z) :
  copy_bytes k src dst from to !! a
  = if decide (dst <= a < dst + Z.of_nat k)
    then Some (default 0 (from !! (src + (a - dst))))
    else to !! a.
Proof.
  revert src dst to. induction k as [| k IH]; intros src dst to.
  - simpl. rewrite decide_False by lia. reflexivity.
  - cbn [copy_bytes]. rewrite IH.
    destruct (decide (a = dst)) as [-> | Hne].
    + rewrite decide_False by lia. rewrite decide_True by lia.
      rewrite lookup_insert_eq. do 3 f_equal. lia.
    + rewrite lookup_insert_ne by congruence.
      destruct (decide (dst + 1 <= a < dst + 1 + Z.of_nat k)).
      * rewrite decide_True by lia. do 3 f_equal. lia.
      * rewrite decide_False by lia. reflexivity.
Qed.

(** Round trip on the simulated device, from any of its states whose next
    address is not null: when
    [sizeof(T) * n] is positive, fits [size_t] and the memory left, a fresh
    handle allocated for [n] elements, filled from the host address [src]
    and read back to the host address [dst] completes with capacity [n], and
    every byte of the [n] elements at [dst] is the byte that was at [src]
    (an unwritten host byte reading as 0). *)
Theorem sim_round_trip (sizeofT n : Z) (src dst : ptr) (s : sim) (cs : list call) :
  0 < sizeofT * n < size_t_modulus ->
  sizeofT * n <= device_left s ->
  next_addr s ≠ nullptr -> src ≠ nullptr -> dst ≠ nullptr ->
  exists h w',
    upload_download sizeofT n src dst (World s cs) = Done (h, w') /\
    size h = n /\
    forall i, 0 <= i < sizeofT * n ->
      hmem (machine w') !! (dst + i) = Some (default 0 (hmem s !! (src + i))).
Proof.
  intros Hfit Hroom Hnext Hsrc Hdst.
  assert (size_t_mul sizeofT n = sizeofT * n) as Hb
    by (unfold size_t_mul; apply Z.mod_small; lia).
  (* allocate: the device answers with its next address *)
  unfold upload_download, allocate, gpu_malloc, call_cudaMalloc. simpl.
  rewrite Hb. unfold sim_malloc.
  assert ((sizeofT * n =? 0) = false) as -> by (apply Z.eqb_neq; lia).
  assert ((device_left s <? sizeofT * n) = false) as -> by (apply Z.ltb_ge; lia).
  simpl. unfold get. simpl.
  apply non_null_true in Hnext, Hsrc, Hdst.
  (* host to device: the block at that address is live and large enough *)
  unfold gpu_memcpy_h2d. rewrite Hnext, Hsrc. simpl.
  unfold call_cudaMemcpy. simpl. rewrite Hb. unfold fits. simpl.
  rewrite lookup_insert_eq, Z.leb_refl. simpl.
  (* device to host *)
  unfold gpu_memcpy_d2h. rewrite Hnext, Hdst. simpl.
  unfold call_cudaMemcpy. simpl. rewrite Hb. unfold fits. simpl.
  rewrite lookup_insert_eq, Z.leb_refl. simpl.
  eexists _, _. split; [reflexivity |]. split; [reflexivity |].
  intros i Hi. simpl.
  rewrite lookup_copy_bytes, decide_True by lia.
  rewrite lookup_copy_bytes, decide_True by lia.
  simpl. do 3 f_equal. lia.
Qed.

(** ** Instances on the simulated device *)

(** The accounts of one handle through two growths, a borrowed spell and its
    destruction. *)
Example ledger_of_a_handle :
  (w ← (run (RT := ledger_runtime sim_runtime) sizeof_float
          [Allocate 1; Allocate 2; SetExternal 8192; Allocate 9; UnsetExternal;
           Allocate 3] fresh ledger_world0
        ≫= fun '(h, w) => destroy (RT := ledger_runtime sim_runtime) h w);
   Done (ledger w))
  = Done [Obtained 4096; Released 4096; Obtained 4352; Released 4352;
          Obtained 4608; Released 4608].
Proof. vm_compute. reflexivity. Qed.

(** Witness of [handle_releases_what_it_obtains]: the handle of [ledger_of_a_handle]. *)
Lemma handle_releases_what_it_obtains_witness :
  exists h' w',
    run (RT := ledger_runtime sim_runtime) sizeof_float
      [Allocate 1; Allocate 2; SetExternal 8192; Allocate 9; UnsetExternal; Allocate 3]
      fresh ledger_world0 = Done (h', w') /\
    exists w'' es,
      destroy (RT := ledger_runtime sim_runtime) h' w' = Done w'' /\
      ledger w'' = ledger ledger_world0 ++ es /\
      outstanding (d_internal_ fresh) es = Some nullptr.
Proof.
  eexists _, _.
  refine ((fun H => conj H
             (handle_releases_what_it_obtains sim_runtime sizeof_float _ _ _ _ _ H)) _).
  vm_compute. reflexivity.
Defined.

(** Witness of [cudaFree_never_given_null]: a handle grown from one to two floats. *)
Lemma cudaFree_never_given_null_witness :
  run sizeof_float [Allocate 1; Allocate 2] fresh world0 = Done (handle_1_2, world_1_2) /\
  exists w'' evs, destroy handle_1_2 world_1_2 = Done w'' /\
    calls w'' = calls world0 ++ evs /\
    Forall (fun p => p ≠ nullptr) (frees evs).
Proof.
  refine ((fun H => conj H (cudaFree_never_given_null sizeof_float _ _ _ _ _ H)) _).
  vm_compute. reflexivity.
Defined.

(** Witness of [allocate_provides_capacity]: two floats on a default-constructed handle. *)
Lemma allocate_provides_capacity_witness :
  d_external_ fresh = nullptr /\
  allocate sizeof_float 2 fresh world0 = Done (handle_2, world_2) /\
  2 <= size handle_2 /\ isExternal handle_2 = false /\
  get handle_2 = d_internal_ handle_2 /\
  (size handle_2 = 2 \/ (handle_2 = fresh /\ world_2 = world0)).
Proof.
  refine ((fun H1 H2 => conj H1 (conj H2
             (allocate_provides_capacity sizeof_float 2 fresh handle_2 world0 world_2
                H1 H2))) _ _).
  - reflexivity.
  - vm_compute. reflexivity.
Defined.

(** Witness of [allocate_idempotent]: two floats, asked for twice. *)
Lemma allocate_idempotent_witness :
  allocate sizeof_float 2 fresh world0 = Done (handle_2, world_2) /\
  get handle_2 ≠ nullptr /\
  allocate sizeof_float 2 handle_2 world_2 = Done (handle_2, world_2).
Proof.
  refine ((fun H1 H2 => conj H1 (conj H2
             (allocate_idempotent sizeof_float 2 fresh handle_2 world0 world_2
                H1 H2))) _ _).
  - vm_compute. reflexivity.
  - vm_compute. discriminate.
Defined.

(** Witness of [allocate_within_capacity_is_free]: a handle of capacity 3 asked for 3, 1, 0 and 2 floats. *)
Lemma allocate_within_capacity_is_free_witness :
  d_internal_ handle_2_3 ≠ nullptr /\
  Forall (fun n => n <= size handle_2_3) [3; 1; 0; 2] /\
  run sizeof_float (Allocate <$> [3; 1; 0; 2]) handle_2_3 world_2_3
  = Done (handle_2_3, world_2_3).
Proof.
  refine ((fun H1 H2 => conj H1 (conj H2
             (allocate_within_capacity_is_free sizeof_float [3; 1; 0; 2]
                handle_2_3 world_2_3 H1 H2))) _ _).
  - vm_compute. discriminate.
  - repeat apply Forall_cons_2; try apply Forall_nil_2; vm_compute; discriminate.
Defined.

(** Witness of [borrowed_handle_is_inert]: the borrowing handle on a device with one live block. *)
Lemma borrowed_handle_is_inert_witness :
  isExternal borrowed = true /\
  forallb keeps_external [Allocate 7; Get; Allocate 1; IsExternal; Size; ToBool] = true /\
  run sizeof_float [Allocate 7; Get; Allocate 1; IsExternal; Size; ToBool]
    borrowed world_2 = Done (borrowed, world_2) /\
  get borrowed = d_external_ borrowed.
Proof.
  refine ((fun H1 H2 => conj H1 (conj H2
             (borrowed_handle_is_inert sizeof_float _ borrowed world_2 H1 H2))) _ _);
    reflexivity.
Defined.

(** Witness of [external_pointer_is_framed]: a handle that never borrows. *)
Lemma external_pointer_is_framed_witness :
  forallb keeps_external [Allocate 1; Size; Allocate 2; Get] = true /\
  run sizeof_float [Allocate 1; Size; Allocate 2; Get] fresh world0
  = Done (handle_1_2, world_1_2) /\
  d_external_ handle_1_2 = d_external_ fresh /\
  isExternal handle_1_2 = isExternal fresh.
Proof.
  refine ((fun H1 H2 => conj H1 (conj H2
             (external_pointer_is_framed sizeof_float _ fresh handle_1_2
                world0 world_1_2 H1 H2))) _ _).
  - reflexivity.
  - vm_compute. reflexivity.
Defined.

(** Witness of [only_allocate_can_be_fatal]: a thousand floats on a device of 1 KiB. *)
Lemma only_allocate_can_be_fatal_witness :
  run sizeof_float [Allocate 2; Get; Allocate 1000] fresh world0
  = Fatal (CudaMalloc 4000) cudaErrorMemoryAllocation /\
  cudaErrorMemoryAllocation ≠ cudaSuccess /\
  exists n, Allocate n ∈ [Allocate 2; Get; Allocate 1000].
Proof.
  refine ((fun H => conj H
             (only_allocate_can_be_fatal sizeof_float _ fresh world0 _ _ H)) _).
  vm_compute. reflexivity.
Defined.


(** Witness of [allocate_requests_bytes]: two floats are 8 bytes. *)
Lemma allocate_requests_bytes_witness :
  0 <= sizeof_float * 2 < size_t_modulus /\
  d_external_ fresh = nullptr /\
  d_internal_ fresh = nullptr /\
  allocate sizeof_float 2 fresh world0 = Done (handle_2, world_2) /\
  calls world_2 = calls world0 ++ [CudaMalloc (sizeof_float * 2)] /\
  size handle_2 = 2 /\
  get handle_2 = (cudaMalloc (machine world0) (sizeof_float * 2)).1.2.
Proof.
  refine ((fun H1 H2 H3 H4 => conj H1 (conj H2 (conj H3 (conj H4
             (allocate_requests_bytes sizeof_float 2 fresh handle_2 world0 world_2
                H1 H2 H3 H4))))) _ _ _ _).
  - unfold sizeof_float, size_t_modulus. lia.
  - reflexivity.
  - reflexivity.
  - vm_compute. reflexivity.
Defined.

(** Witness of [copies_issue_matching_transfers]: two floats from host address 64 to the block at 4096 and back to host address 128. *)
Lemma copies_issue_matching_transfers_witness :
  4096 ≠ nullptr /\ 64 ≠ nullptr /\ 128 ≠ nullptr /\
  exists w2,
    (w1 ← gpu_memcpy_h2d sizeof_float 4096 64 2 world_2;
     gpu_memcpy_d2h sizeof_float 128 4096 2 w1) = Done w2 /\
    calls w2 = calls world_2 ++
      [CudaMemcpy 4096 64 (size_t_mul sizeof_float 2) cudaMemcpyHostToDevice;
       CudaMemcpy 128 4096 (size_t_mul sizeof_float 2) cudaMemcpyDeviceToHost].
Proof.
  assert (4096 ≠ nullptr) as H1 by discriminate.
  assert (64 ≠ nullptr) as H2 by discriminate.
  assert (128 ≠ nullptr) as H3 by discriminate.
  split; [exact H1 |]. split; [exact H2 |]. split; [exact H3 |].
  eexists.
  refine ((fun H => conj H
             (copies_issue_matching_transfers sizeof_float 4096 64 128 2 world_2 _
                H1 H2 H3 H)) _).
  vm_compute. reflexivity.
Defined.

(** Witness of [sim_round_trip]: one float from host address 64 to host address 128. *)
Lemma sim_round_trip_witness :
  0 < sizeof_float * 1 < size_t_modulus /\
  sizeof_float * 1 <= device_left sim0 /\
  next_addr sim0 ≠ nullptr /\ 64 ≠ nullptr /\ 128 ≠ nullptr /\
  exists h w',
    upload_download sizeof_float 1 64 128 world0 = Done (h, w') /\
    size h = 1 /\
    forall i, 0 <= i < sizeof_float * 1 ->
      hmem (machine w') !! (128 + i) = Some (default 0 (hmem sim0 !! (64 + i))).
Proof.
  refine ((fun H1 H2 H3 H4 H5 => conj H1 (conj H2 (conj H3 (conj H4 (conj H5
             (sim_round_trip sizeof_float 1 64 128 sim0 [] H1 H2 H3 H4 H5)))))) _ _ _ _ _).
  - unfold sizeof_float, size_t_modulus. lia.
  - vm_compute. discriminate.
  - vm_compute. discriminate.
  - discriminate.
  - discriminate.
Defined.
